(** * Career page (src/pages/Career.tsx): search filter, fetch and apply flow

    The page keeps a list of internships fetched from the backend, shows the
    ones matching a search box, and lets a signed-in visitor submit an
    application.  The handlers of the component are embedded as functions
    over an explicit world: the component's state, what it has shown
    (toasts, console), and the backend it talks to. *)

From Stdlib Require Import ZArith Ascii String Sorted.
From stdpp Require Import base tactics option list sorting strings.

Local Open Scope Z_scope.
Local Open Scope string_scope.
Local Open Scope list_scope.

(** ** JavaScript strings

    A JavaScript string is a finite sequence of code units; [string] plays
    that role, one [ascii] per code unit. *)

(** [s.includes(t)]: [t] occurs in [s] as a contiguous run of code units,
    looked for at every start position from the left. *)
Fixpoint includes (s t : string) : bool :=
  String.prefix t s ||
  match s with
  | EmptyString => false
  | String _ s' => includes s' t
  end.

(** Truthiness of a string value: only the empty string is falsy. *)
Definition truthy (s : string) : bool :=
  match s with
  | EmptyString => false
  | String _ _ => true
  end.

(** Lower-casing of one code unit in the ASCII range: [A]..[Z] move to
    [a]..[z], everything else stays. *)
Definition lower_ascii (c : ascii) : ascii :=
  let n := N_of_ascii c in
  if ((65 <=? n) && (n <=? 90))%N then ascii_of_N (n + 32) else c.

(** [s.toLowerCase()] on strings of ASCII code units. *)
Fixpoint ascii_toLowerCase (s : string) : string :=
  match s with
  | EmptyString => EmptyString
  | String c s' => String (lower_ascii c) (ascii_toLowerCase s')
  end.

(** ** Data model *)

(** [interface Internship]; [description] and [duration] are
    [string | null]. *)
Module Internship.
Record t := mk {
  id : string;
  title : string;
  company : string;
  description : option string;
  duration : option string
}.
End Internship.

(** ** The search filter *)

Section Filter.

(** [String.prototype.toLowerCase] is the host's; the filter is embedded
    over any lower-casing function. *)
Variable toLowerCase : string -> string.

(** The callback handed to [internships.filter]:
    [title.toLowerCase().includes(q.toLowerCase()) ||
     company.toLowerCase().includes(q.toLowerCase()) ||
     (description && description.toLowerCase().includes(q.toLowerCase()))].
    The guard [description && ...] is falsy for [null] and for the empty
    string. *)
Definition matchesSearch (searchQuery : string) (internship : Internship.t)
  : bool :=
  includes (toLowerCase (Internship.title internship))
           (toLowerCase searchQuery)
  || includes (toLowerCase (Internship.company internship))
              (toLowerCase searchQuery)
  || match Internship.description internship with
     | None => false
     | Some d => truthy d && includes (toLowerCase d) (toLowerCase searchQuery)
     end.

(** [const filteredInternships = internships.filter(...)]. *)
Definition filteredInternships (internships : list Internship.t)
    (searchQuery : string) : list Internship.t :=
  List.filter (matchesSearch searchQuery) internships.

(** The words of the specification: [s] contains [q] as a
    case-insensitive substring when, both lower-cased, [q] sits somewhere
    inside [s]. *)
Definition contains_ci (s q : string) : Prop :=
  exists pre post,
    toLowerCase s = String.append pre (String.append (toLowerCase q) post).

(** An internship answers the query through its title, its company, or
    its description when it has one. *)
Definition MatchesQuery (q : string) (i : Internship.t) : Prop :=
  contains_ci (Internship.title i) q
  \/ contains_ci (Internship.company i) q
  \/ exists d, Internship.description i = Some d /\ contains_ci d q.

End Filter.

(** ** Entities exchanged with the backend and the notification layer *)

(** The signed-in user as the page uses it: [user.id]. *)
Module User.
Record t := mk { id : string }.
End User.

(** The object handed to [from('internship_applications').insert]. *)
Module Application.
Record t := mk {
  internship_id : string;
  user_id : string;
  status : string
}.
End Application.

(** The argument of [toast]; [variant] is absent ([None]) on the default
    notifications. *)
Module Toast.
Record t := mk {
  title : string;
  description : string;
  variant : option string
}.
End Toast.

(** The error object of a backend answer. *)
Record PostgrestError := { message : string }.

(** What an awaited backend call resolves to: [{ data, error }]. *)
Record Response (A : Type) := mkResponse {
  data : option A;
  error : option PostgrestError
}.
Arguments mkResponse {A} _ _.
Arguments data {A} _.
Arguments error {A} _.

(** A stored internship: the five columns the page's interface names, and
    the creation time the listing is ordered by. *)
Record InternshipRow := {
  columns : Internship.t;
  created_at : Z
}.

(** The query built by [from(t).select(c).order(col, { ascending })]: no
    row filter, no limit, no range. *)
Record Query := {
  from : string;
  select : string;
  order : option (string * bool)
}.

(** The calls the page can send. *)
Inductive Request :=
| ReqSelect (q : Query)
| ReqInsert (table : string) (row : Application.t)
| ReqGetUser.

(** The pending action kept by the protected-action hook. *)
Module PendingAction.
Record t := mk {
  type : string;
  data : option Internship.t
}.
End PendingAction.

(** ** The world the handlers run in *)

(** The [useState] cells of the component, followed by the two cells of
    [useProtectedAction]. *)
Record Page := {
  searchQuery : string;
  selectedInternship : option Internship.t;
  isApplyDialogOpen : bool;
  isDetailsDialogOpen : bool;
  internships : list Internship.t;
  loading : bool;
  showAuthModal : bool;
  pendingAction : option PendingAction.t
}.

(** The remote store: its two tables, the signed-in user of the auth
    client, the outcome of the calls to come ([Some e]: that call fails with
    [e]; past the end of the list every call is served), and the calls
    received so far, oldest first. *)
Record Backend := {
  internships_table : list InternshipRow;
  applications_table : list Application.t;
  session : option User.t;
  faults : list (option PostgrestError);
  received : list Request
}.

Record World := {
  page : Page;
  toasts : list Toast.t;
  console : list (string * PostgrestError);
  backend : Backend
}.

(** [useState] initial values; the hook starts with no prompt and nothing
    pending. *)
Definition initial_page : Page :=
  {| searchQuery := EmptyString;
     selectedInternship := None;
     isApplyDialogOpen := false;
     isDetailsDialogOpen := false;
     internships := [];
     loading := true;
     showAuthModal := false;
     pendingAction := None |}.

Definition initial_world (b : Backend) : World :=
  {| page := initial_page; toasts := []; console := []; backend := b |}.

(** ** A state monad over the world

    A handler is a computation over the world.  It runs to its end before
    the next event is taken; each [await] is the place where the backend
    answers. *)

Definition M (A : Type) : Type := World -> A * World.

Definition ret {A} (a : A) : M A := fun w => (a, w).

Definition bind {A B} (m : M A) (k : A -> M B) : M B :=
  fun w => let (a, w') := m w in k a w'.

Notation "x <- m ;; k" := (bind m (fun x => k))
  (at level 100, m at next level, right associativity).
Notation "m ;; k" := (bind m (fun _ => k))
  (at level 100, right associativity).

Definition exec {A} (m : M A) (w : World) : World := snd (m w).

Definition get_page : M Page := fun w => (page w, w).

Definition modify_page (f : Page -> Page) : M unit :=
  fun w => (tt, {| page := f (page w); toasts := toasts w;
                   console := console w; backend := backend w |}).

Definition modify_backend (f : Backend -> Backend) : M unit :=
  fun w => (tt, {| page := page w; toasts := toasts w;
                   console := console w; backend := f (backend w) |}).

(** *** State setters *)

Definition setSearchQuery (v : string) : M unit :=
  modify_page (fun p =>
    {| searchQuery := v;
       selectedInternship := selectedInternship p;
       isApplyDialogOpen := isApplyDialogOpen p;
       isDetailsDialogOpen := isDetailsDialogOpen p;
       internships := internships p;
       loading := loading p;
       showAuthModal := showAuthModal p;
       pendingAction := pendingAction p |}).

Definition setSelectedInternship (v : option Internship.t) : M unit :=
  modify_page (fun p =>
    {| searchQuery := searchQuery p;
       selectedInternship := v;
       isApplyDialogOpen := isApplyDialogOpen p;
       isDetailsDialogOpen := isDetailsDialogOpen p;
       internships := internships p;
       loading := loading p;
       showAuthModal := showAuthModal p;
       pendingAction := pendingAction p |}).

Definition setIsApplyDialogOpen (v : bool) : M unit :=
  modify_page (fun p =>
    {| searchQuery := searchQuery p;
       selectedInternship := selectedInternship p;
       isApplyDialogOpen := v;
       isDetailsDialogOpen := isDetailsDialogOpen p;
       internships := internships p;
       loading := loading p;
       showAuthModal := showAuthModal p;
       pendingAction := pendingAction p |}).

Definition setIsDetailsDialogOpen (v : bool) : M unit :=
  modify_page (fun p =>
    {| searchQuery := searchQuery p;
       selectedInternship := selectedInternship p;
       isApplyDialogOpen := isApplyDialogOpen p;
       isDetailsDialogOpen := v;
       internships := internships p;
       loading := loading p;
       showAuthModal := showAuthModal p;
       pendingAction := pendingAction p |}).

Definition setInternships (v : list Internship.t) : M unit :=
  modify_page (fun p =>
    {| searchQuery := searchQuery p;
       selectedInternship := selectedInternship p;
       isApplyDialogOpen := isApplyDialogOpen p;
       isDetailsDialogOpen := isDetailsDialogOpen p;
       internships := v;
       loading := loading p;
       showAuthModal := showAuthModal p;
       pendingAction := pendingAction p |}).

Definition setLoading (v : bool) : M unit :=
  modify_page (fun p =>
    {| searchQuery := searchQuery p;
       selectedInternship := selectedInternship p;
       isApplyDialogOpen := isApplyDialogOpen p;
       isDetailsDialogOpen := isDetailsDialogOpen p;
       internships := internships p;
       loading := v;
       showAuthModal := showAuthModal p;
       pendingAction := pendingAction p |}).

Definition setShowAuthModal (v : bool) : M unit :=
  modify_page (fun p =>
    {| searchQuery := searchQuery p;
       selectedInternship := selectedInternship p;
       isApplyDialogOpen := isApplyDialogOpen p;
       isDetailsDialogOpen := isDetailsDialogOpen p;
       internships := internships p;
       loading := loading p;
       showAuthModal := v;
       pendingAction := pendingAction p |}).

Definition setPendingAction (v : option PendingAction.t) : M unit :=
  modify_page (fun p =>
    {| searchQuery := searchQuery p;
       selectedInternship := selectedInternship p;
       isApplyDialogOpen := isApplyDialogOpen p;
       isDetailsDialogOpen := isDetailsDialogOpen p;
       internships := internships p;
       loading := loading p;
       showAuthModal := showAuthModal p;
       pendingAction := v |}).

(** *** Notifications and the console *)

(** [toast(t)]: one more notification on screen. *)
Definition toast (t : Toast.t) : M unit :=
  fun w => (tt, {| page := page w; toasts := toasts w ++ [t];
                   console := console w; backend := backend w |}).

(** [console.error(label, e)]. *)
Definition console_error (label : string) (e : PostgrestError) : M unit :=
  fun w => (tt, {| page := page w; toasts := toasts w;
                   console := console w ++ [(label, e)];
                   backend := backend w |}).

(** ** The backend as the page sees it

    The client resolves every awaited call with an answer object; a call
    that goes wrong carries its error in the [error] field. *)

(** Orderings of stored internships by creation time. *)
Definition newest_first (a b : InternshipRow) : Prop :=
  created_at b <= created_at a.

Definition oldest_first (a b : InternshipRow) : Prop :=
  created_at a <= created_at b.

#[global] Instance newest_first_dec a b : Decision (newest_first a b).
Proof. unfold newest_first. apply _. Defined.

#[global] Instance oldest_first_dec a b : Decision (oldest_first a b).
Proof. unfold oldest_first. apply _. Defined.

(** [.order(col, { ascending })] on the internships table; the store knows
    one ordering column, [created_at]. *)
Definition run_order (o : option (string * bool)) (rows : list InternshipRow)
  : option (list InternshipRow) :=
  match o with
  | None => Some rows
  | Some (col, ascending) =>
      if String.eqb col "created_at"
      then Some (if ascending : bool
                 then merge_sort oldest_first rows
                 else merge_sort newest_first rows)
      else None
  end.

(** A served query: the star projection of the internships table hands
    back every stored row whole, in the order asked for. *)
Definition run_select (b : Backend) (q : Query)
  : Response (list InternshipRow) :=
  if String.eqb (from q) "internships" && String.eqb (select q) "*"
  then match run_order (order q) (internships_table b) with
       | Some rows => mkResponse (Some rows) None
       | None => mkResponse None (Some {| message := "unknown column" |})
       end
  else mkResponse None (Some {| message := "unknown relation" |}).

(** A served insert: the row joins the applications table; an insert
    without [.select()] resolves with no data. *)
Definition run_insert (b : Backend) (table : string) (row : Application.t)
  : Response unit * list Application.t :=
  if String.eqb table "internship_applications"
  then (mkResponse None None, applications_table b ++ [row])
  else (mkResponse None (Some {| message := "unknown relation" |}),
        applications_table b).

(** The outcome decided for the next call, and the outcomes left. *)
Definition next_fault (b : Backend)
  : option PostgrestError * list (option PostgrestError) :=
  match faults b with
  | [] => (None, [])
  | f :: fs => (f, fs)
  end.

(** [await supabase.from(..).select(..).order(..)]. *)
Definition supabase_select (q : Query) : M (Response (list InternshipRow)) :=
  fun w =>
    let b := backend w in
    let (f, fs) := next_fault b in
    let r := match f with
             | Some e => mkResponse None (Some e)
             | None => run_select b q
             end in
    (r, {| page := page w; toasts := toasts w; console := console w;
           backend := {| internships_table := internships_table b;
                         applications_table := applications_table b;
                         session := session b;
                         faults := fs;
                         received := received b ++ [ReqSelect q] |} |}).

(** [await supabase.from(table).insert(row)]. *)
Definition supabase_insert (table : string) (row : Application.t)
  : M (Response unit) :=
  fun w =>
    let b := backend w in
    let (f, fs) := next_fault b in
    let (r, apps) := match f with
                     | Some e => (mkResponse None (Some e), applications_table b)
                     | None => run_insert b table row
                     end in
    (r, {| page := page w; toasts := toasts w; console := console w;
           backend := {| internships_table := internships_table b;
                         applications_table := apps;
                         session := session b;
                         faults := fs;
                         received := received b ++ [ReqInsert table row] |} |}).

(** [await supabase.auth.getUser()], destructured to its [user]: the
    signed-in user, or [null] when there is none or the call fails. *)
Definition supabase_auth_getUser : M (option User.t) :=
  fun w =>
    let b := backend w in
    let (f, fs) := next_fault b in
    let u := match f with
             | Some _ => None
             | None => session b
             end in
    (u, {| page := page w; toasts := toasts w; console := console w;
           backend := {| internships_table := internships_table b;
                         applications_table := applications_table b;
                         session := session b;
                         faults := fs;
                         received := received b ++ [ReqGetUser] |} |}).

(** ** The protected-action hook *)

(** Modelled from the spec: [useProtectedAction] lives in
    [@/hooks/useProtectedAction], outside this file.  The specification
    describes it as a gate that defers a user action until after an
    authentication prompt completes: with a signed-in user the action runs
    at once; without one it is recorded as pending and the prompt is
    shown. *)
Definition executeProtectedAction (type : string) (data : Internship.t)
    (callback : M unit) : M unit :=
  fun w =>
    match session (backend w) with
    | Some _ => callback w
    | None =>
        (setPendingAction (Some (PendingAction.mk type (Some data))) ;;
         setShowAuthModal true) w
    end.

(** Modelled from the spec: [clearPendingAction] of the same hook forgets
    the pending action. *)
Definition clearPendingAction : M unit := setPendingAction None.

(** Modelled from the spec: [completePendingAction] of the same hook hands
    the pending action to its handler once a user is signed in, and forgets
    it. *)
Definition completePendingAction (handler : PendingAction.t -> M unit)
  : M unit :=
  fun w =>
    match session (backend w), pendingAction (page w) with
    | Some _, Some action => (handler action ;; clearPendingAction) w
    | _, _ => (tt, w)
    end.

(** ** The handlers of the component *)

(** [fetchInternships]: the [try] body throws only through
    [if (error) throw error]; [finally] runs on both paths. *)
Definition fetchInternships : M unit :=
  setLoading true ;;
  r <- supabase_select {| from := "internships";
                          select := "*";
                          order := Some ("created_at", false) |} ;;
  match error r with
  | Some e =>
      console_error "Error fetching internships:" e ;;
      toast (Toast.mk "Error loading internships"
                      "Please try again later"
                      (Some "destructive"))
  | None =>
      setInternships (match data r with
                      | Some rows => map columns rows
                      | None => []
                      end)
  end ;;
  setLoading false.

(** The effect run with [completePendingAction]. *)
Definition pendingActionEffect : M unit :=
  completePendingAction (fun action =>
    match String.eqb (PendingAction.type action) "apply_internship",
          PendingAction.data action with
    | true, Some d =>
        setSelectedInternship (Some d) ;;
        setIsApplyDialogOpen true
    | _, _ => ret tt
    end).

Definition handleViewDetails (internship : Internship.t) : M unit :=
  setSelectedInternship (Some internship) ;;
  setIsDetailsDialogOpen true.

Definition handleApply (internship : Internship.t) : M unit :=
  setSelectedInternship (Some internship) ;;
  executeProtectedAction "apply_internship" internship
    (setIsApplyDialogOpen true).

(** [handleApplySubmit]; [selectedInternship] is the value captured by the
    render the form belongs to.  [e.preventDefault()] touches the DOM event
    alone. *)
Definition handleApplySubmit : M unit :=
  p <- get_page ;;
  match selectedInternship p with
  | None => ret tt
  | Some selected =>
      user <- supabase_auth_getUser ;;
      match user with
      | None => ret tt
      | Some user =>
          r <- supabase_insert "internship_applications"
                 (Application.mk (Internship.id selected)
                                 (User.id user)
                                 "applied") ;;
          match error r with
          | Some _ =>
              toast (Toast.mk "Error"
                       "Failed to submit application. Please try again."
                       (Some "destructive"))
          | None =>
              toast (Toast.mk "Application Submitted!"
                       ("Your application for "
                        +:+ Internship.title selected
                        +:+ " has been received.")
                       None) ;;
              setIsApplyDialogOpen false
          end
      end
  end.

Definition handleNotifyMe : M unit :=
  toast (Toast.mk "You're on the waitlist!"
           "We'll notify you when new opportunities are available."
           None).

(** [onClose] of the authentication modal. *)
Definition authModalOnClose : M unit :=
  setShowAuthModal false ;;
  clearPendingAction.

(** The button inside the details dialog, rendered when an internship is
    selected. *)
Definition detailsApplyOnClick : M unit :=
  p <- get_page ;;
  match selectedInternship p with
  | None => ret tt
  | Some selected =>
      setIsDetailsDialogOpen false ;;
      handleApply selected
  end.

(** ** The page as a transition system *)

(** Everything that can happen to the page: its mount, the visitor's
    gestures, and the completion of the authentication prompt. *)
Inductive Event :=
| Mount
| SearchChange (v : string)
| ClearSearch
| ViewDetails (internship : Internship.t)
| ApplyNow (internship : Internship.t)
| DetailsApply
| DetailsOpenChange (open : bool)
| ApplyOpenChange (open : bool)
| SubmitApplication
| NotifyMe
| AuthModalClose
| AuthCompleted (u : User.t).

(** Modelled from the spec: the authentication modal lives in
    [@/components/AuthModal], outside this file; when its prompt completes
    a user is signed in, and the effect depending on
    [completePendingAction] runs again. *)
Definition authCompleted (u : User.t) : M unit :=
  modify_backend (fun b =>
    {| internships_table := internships_table b;
       applications_table := applications_table b;
       session := Some u;
       faults := faults b;
       received := received b |}) ;;
  pendingActionEffect.

Definition step (e : Event) : M unit :=
  match e with
  | Mount => fetchInternships ;; pendingActionEffect
  | SearchChange v => setSearchQuery v
  | ClearSearch => setSearchQuery EmptyString
  | ViewDetails i => handleViewDetails i
  | ApplyNow i => handleApply i
  | DetailsApply => detailsApplyOnClick
  | DetailsOpenChange o => setIsDetailsDialogOpen o
  | ApplyOpenChange o => setIsApplyDialogOpen o
  | SubmitApplication => handleApplySubmit
  | NotifyMe => handleNotifyMe
  | AuthModalClose => authModalOnClose
  | AuthCompleted u => authCompleted u
  end.

(** The world after a sequence of events, first event first. *)
Definition run (es : list Event) (w : World) : World :=
  fold_left (fun w e => exec (step e) w) es w.

(** ** What the page renders: the listing *)

(** One entry of [cardColors]. *)
Record ColorScheme := {
  bg : string;
  border : string;
  iconBg : string
}.

(** [const cardColors = [...]]: blue, pink, cyan. *)
Definition cardColors : list ColorScheme :=
  [ {| bg := "bg-blue-50 dark:bg-blue-950/30";
       border := "border-blue-200 dark:border-blue-800";
       iconBg := "bg-blue-500" |};
    {| bg := "bg-pink-50 dark:bg-pink-950/30";
       border := "border-pink-200 dark:border-pink-800";
       iconBg := "bg-pink-500" |};
    {| bg := "bg-cyan-50 dark:bg-cyan-950/30";
       border := "border-cyan-200 dark:border-cyan-800";
       iconBg := "bg-cyan-500" |} ].

(** [v || fallback] on a [string | null]: the fallback stands in for
    [null] and for the empty string. *)
Definition or_else (v : option string) (fallback : string) : string :=
  match v with
  | Some s => if truthy s then s else fallback
  | None => fallback
  end.

(** [v && <Badge>..{v}..</Badge>] on a [string | null]: the badge is there
    for a non-empty string only. *)
Definition and_then_badge (v : option string) : option string :=
  match v with
  | Some s => if truthy s then Some s else None
  | None => None
  end.

(** One card of the grid: its React key, the two class names built from
    the colour scheme, the texts shown, and what its two buttons do.  The
    [animationDelay] style, a decimal fraction of the index printed as
    text, is left out. *)
Record CardView := {
  key : string;
  className : string;
  iconClassName : string;
  cardTitle : string;
  cardDescription : string;
  companyBadge : string;
  durationBadge : option string;
  viewDetailsOnClick : Event;
  applyNowOnClick : Event
}.

(** The body of the [map] callback for the internship at position
    [index].  [cardColors[index % 3]] past the end of the array would be
    [undefined], and reading [colorScheme.bg] would then throw: [None]. *)
Definition renderCard (internship : Internship.t) (index : nat)
  : option CardView :=
  match cardColors !! (index mod 3)%nat with
  | None => None
  | Some colorScheme =>
      Some {| key := Internship.id internship;
              className :=
                bg colorScheme +:+ " " +:+ border colorScheme
                +:+ " border-2 overflow-hidden group animate-fade-in-up hover-lift";
              iconClassName :=
                "p-3 rounded-lg " +:+ iconBg colorScheme +:+ " w-fit";
              cardTitle := Internship.title internship;
              cardDescription :=
                or_else (Internship.description internship)
                        "No description available";
              companyBadge := Internship.company internship;
              durationBadge :=
                and_then_badge (Internship.duration internship);
              viewDetailsOnClick := ViewDetails internship;
              applyNowOnClick := ApplyNow internship |}
  end.

(** [filteredInternships.map((internship, index) => ...)] from position [index] on; one
    card that throws makes the whole rendering throw. *)
Fixpoint renderCardsFrom (index : nat) (filtered : list Internship.t)
  : option (list CardView) :=
  match filtered with
  | [] => Some []
  | internship :: rest =>
      match renderCard internship index with
      | None => None
      | Some card =>
          match renderCardsFrom (S index) rest with
          | None => None
          | Some cards => Some (card :: cards)
          end
      end
  end.

Definition renderCards (filtered : list Internship.t)
  : option (list CardView) :=
  renderCardsFrom 0 filtered.

(** The three faces of the listing section: the loading line, the
    "No internships available" line with its Clear Search button, and the
    grid of cards. *)
Inductive Listing :=
| LoadingInternships
| NoInternshipsAvailable (clearSearchOnClick : Event)
| CardGrid (cards : list CardView).

Section Render.

Variable toLowerCase : string -> string.

(** [loading ? .. : filteredInternships.length === 0 ? .. : ..]. *)
Definition renderListing (p : Page) : option Listing :=
  if loading p then Some LoadingInternships
  else
    let filtered :=
      filteredInternships toLowerCase (internships p) (searchQuery p) in
    if (length filtered =? 0)%nat
    then Some (NoInternshipsAvailable ClearSearch)
    else match renderCards filtered with
         | None => None
         | Some cards => Some (CardGrid cards)
         end.

End Render.

(** ** Vocabulary for the statements *)

(** The outcome decided for the [n]-th call to come, [0] for the next one:
    [None] when it will be served, [Some e] when it will fail with [e]. *)
Definition outcome (n : nat) (b : Backend) : option PostgrestError :=
  match faults b !! n with
  | Some f => f
  | None => None
  end.

(** The query [fetchInternships] builds. *)
Definition internships_query : Query :=
  {| from := "internships";
     select := "*";
     order := Some ("created_at", false) |}.

(** The row [handleApplySubmit] builds for an internship and a user. *)
Definition application_row (selected : Internship.t) (u : User.t)
  : Application.t :=
  Application.mk (Internship.id selected) (User.id u) "applied".

(** A call that reads the internships table, writes the applications
    table, or asks who is signed in. *)
Definition reads_internships_writes_applications (r : Request) : bool :=
  match r with
  | ReqSelect q => String.eqb (from q) "internships"
  | ReqInsert table _ => String.eqb table "internship_applications"
  | ReqGetUser => true
  end.

(** The same world over another content of the applications table. *)
Definition with_applications (apps : list Application.t) (w : World)
  : World :=
  {| page := page w; toasts := toasts w; console := console w;
     backend := {| internships_table := internships_table (backend w);
                   applications_table := apps;
                   session := session (backend w);
                   faults := faults (backend w);
                   received := received (backend w) |} |}.

(** Three postings used to run the definitions: one with a description,
    one without, one whose description is the empty string. *)
Definition posting_data : Internship.t :=
  Internship.mk "1" "Data Science Intern" "Acme Labs"
                (Some "Work with Python and SQL") (Some "3 months").

Definition posting_web : Internship.t :=
  Internship.mk "2" "Frontend Developer" "Globex" None None.

Definition posting_ops : Internship.t :=
  Internship.mk "3" "Site Reliability" "Initech" (Some EmptyString) (Some "6 weeks").

Definition postings : list Internship.t :=
  [posting_data; posting_web; posting_ops].

(** A store holding the three postings, created in the order web, data,
    ops, with one earlier application on file. *)
Definition sample_store (who : option User.t)
    (outcomes : list (option PostgrestError)) : Backend :=
  {| internships_table :=
       [ {| columns := posting_data; created_at := 20 |};
         {| columns := posting_web; created_at := 10 |};
         {| columns := posting_ops; created_at := 30 |} ];
     applications_table := [Application.mk "2" "u-7" "applied"];
     session := who;
     faults := outcomes;
     received := [] |}.

Definition alice : User.t := User.mk "u-1".

Definition timeout_error : PostgrestError := {| message := "timeout" |}.

(** A world in which the visitor has picked a posting. *)
Definition picked (selected : option Internship.t) (b : Backend) : World :=
  exec (setSelectedInternship selected) (initial_world b).

(** ** Strings: what [includes] decides *)

Lemma prefix_app_iff (t s : string) :
  String.prefix t s = true <-> exists post, s = String.append t post.
Proof.
  revert s; induction t as [|c t IH]; intros s; simpl.
  - split; [intros _; exists s; reflexivity | destruct s; reflexivity].
  - destruct s as [|d s].
    + split; [discriminate | intros [post H]; discriminate].
    + simpl. destruct (ascii_dec c d) as [->|Hne].
      * rewrite IH. split; intros [post H]; exists post.
        -- now rewrite H.
        -- now injection H.
      * split; [discriminate | intros [post H]; injection H; congruence].
Qed.

Lemma includes_iff (s t : string) :
  includes s t = true <->
  exists pre post, s = String.append pre (String.append t post).
Proof.
  induction s as [|c s IH]; cbn [includes].
  - rewrite orb_false_r, prefix_app_iff. split.
    + intros [post H]. exists EmptyString, post. exact H.
    + intros [pre [post H]]. destruct pre; simpl in H; [eauto | discriminate].
  - rewrite orb_true_iff, prefix_app_iff, IH. split.
    + intros [[post H] | [pre [post H]]].
      * exists EmptyString, post. exact H.
      * exists (String c pre), post. simpl. now rewrite H.
    + intros [pre [post H]]. destruct pre as [|d pre]; simpl in H.
      * left. eauto.
      * right. injection H as _ H. eauto.
Qed.

Lemma includes_empty (s : string) : includes s EmptyString = true.
Proof. destruct s; reflexivity. Qed.

Lemma includes_in_empty (t : string) :
  includes EmptyString t = true -> t = EmptyString.
Proof. destruct t; simpl; [reflexivity | discriminate]. Qed.

(** ** The search filter: what is displayed *)

Section FilterFacts.

Variable toLowerCase : string -> string.

(** The one fact about lower-casing the filter leans on: the empty string
    lower-cases to itself. *)
Hypothesis toLowerCase_empty : toLowerCase EmptyString = EmptyString.

Lemma contains_ci_includes (s q : string) :
  includes (toLowerCase s) (toLowerCase q) = true <->
  contains_ci toLowerCase s q.
Proof. apply includes_iff. Qed.

(** The truthiness guard on the description never hides a match: an empty
    description can only hold an empty lower-cased query, and that one is
    found in every title. *)
Lemma matchesSearch_iff (q : string) (i : Internship.t) :
  matchesSearch toLowerCase q i = true <-> MatchesQuery toLowerCase q i.
Proof.
  unfold matchesSearch, MatchesQuery.
  rewrite !orb_true_iff, !contains_ci_includes.
  split.
  - intros [[Ht | Hc] | Hd]; [tauto | tauto |].
    destruct (Internship.description i) as [d|]; [|discriminate].
    apply andb_true_iff in Hd as [_ Hd].
    right; right. exists d. split; [reflexivity|].
    now apply contains_ci_includes.
  - intros [Ht | [Hc | [d [Hd Hin]]]]; [tauto | tauto |].
    rewrite Hd. destruct d as [|c d].
    + left; left. apply contains_ci_includes in Hin.
      rewrite toLowerCase_empty in Hin.
      apply includes_in_empty in Hin.
      apply contains_ci_includes. rewrite Hin. apply includes_empty.
    + right. simpl. now apply contains_ci_includes.
Qed.

End FilterFacts.

Example filter_by_description :
  filteredInternships ascii_toLowerCase postings "PYTHON" = [posting_data].
Proof. reflexivity. Qed.

Example filter_by_company :
  filteredInternships ascii_toLowerCase postings "gLoBeX" = [posting_web].
Proof. reflexivity. Qed.

Example filter_by_title_keeps_order :
  filteredInternships ascii_toLowerCase postings "e"
  = [posting_data; posting_web; posting_ops].
Proof. reflexivity. Qed.

Example filter_no_match :
  filteredInternships ascii_toLowerCase postings "kotlin" = [].
Proof. reflexivity. Qed.

(** C1. For every list of internships and every search query, the filtered
    list holds exactly the internships of the list whose title, company, or
    description (when there is one) contains the query as a
    case-insensitive substring; an internship whose description is null is
    kept only through its title or its company. *)
Theorem filteredInternships_exactly_matching
    (toLowerCase : string -> string)
    (toLowerCase_empty : toLowerCase EmptyString = EmptyString)
    (internships : list Internship.t) (searchQuery : string) :
  (forall i,
      In i (filteredInternships toLowerCase internships searchQuery) <->
      In i internships /\ MatchesQuery toLowerCase searchQuery i)
  /\
  (forall i,
      Internship.description i = None ->
      In i (filteredInternships toLowerCase internships searchQuery) ->
      contains_ci toLowerCase (Internship.title i) searchQuery
      \/ contains_ci toLowerCase (Internship.company i) searchQuery).
Proof.
  assert (Hin : forall i,
    In i (filteredInternships toLowerCase internships searchQuery) <->
    In i internships /\ MatchesQuery toLowerCase searchQuery i).
  { intros i. unfold filteredInternships.
    rewrite filter_In, (matchesSearch_iff toLowerCase toLowerCase_empty).
    reflexivity. }
  split; [exact Hin|].
  intros i Hnull Hi. apply Hin in Hi as [_ [Ht | [Hc | [d [Hd _]]]]].
  - now left.
  - now right.
  - congruence.
Qed.

Lemma filteredInternships_exactly_matching_witness :
  ascii_toLowerCase EmptyString = EmptyString
  /\ (In posting_data (filteredInternships ascii_toLowerCase postings "SQL") <->
      In posting_data postings
      /\ MatchesQuery ascii_toLowerCase "SQL" posting_data).
Proof.
  split; [reflexivity|].
  exact (proj1 (filteredInternships_exactly_matching
                  ascii_toLowerCase eq_refl postings "SQL") posting_data).
Defined.

(** C8. With the empty search query the filter is the identity: the
    filtered list is the full list. *)
Theorem filteredInternships_empty_query
    (toLowerCase : string -> string)
    (toLowerCase_empty : toLowerCase EmptyString = EmptyString)
    (internships : list Internship.t) :
  filteredInternships toLowerCase internships EmptyString = internships.
Proof.
  unfold filteredInternships.
  induction internships as [|i l IH]; [reflexivity|].
  cbn [List.filter]. rewrite IH.
  unfold matchesSearch. rewrite toLowerCase_empty, includes_empty.
  reflexivity.
Qed.

Lemma filteredInternships_empty_query_witness :
  ascii_toLowerCase EmptyString = EmptyString
  /\ filteredInternships ascii_toLowerCase postings EmptyString = postings.
Proof.
  split; [reflexivity|].
  exact (filteredInternships_empty_query ascii_toLowerCase eq_refl postings).
Defined.

(** Any list filter keeps a subsequence of its input. *)
Lemma list_filter_sublist {A} (f : A -> bool) (l : list A) :
  List.filter f l `sublist_of` l.
Proof.
  induction l as [|x l IH]; cbn [List.filter].
  - constructor.
  - destruct (f x); [now apply sublist_skip | now apply sublist_cons].
Qed.

(** C9. For every list of internships and every query the filtered list is
    a subsequence of the fetched list: nothing is reordered, duplicated or
    invented, so whenever one internship comes before another in the
    filtered list, the same two come in that order in the fetched list. *)
Theorem filteredInternships_subsequence
    (toLowerCase : string -> string)
    (internships : list Internship.t) (searchQuery : string) :
  filteredInternships toLowerCase internships searchQuery
    `sublist_of` internships
  /\
  (forall pre a mid b post,
      filteredInternships toLowerCase internships searchQuery
      = pre ++ a :: mid ++ b :: post ->
      exists pre' mid' post',
        internships = pre' ++ a :: mid' ++ b :: post').
Proof.
  assert (Hsub : filteredInternships toLowerCase internships searchQuery
                   `sublist_of` internships)
    by apply list_filter_sublist.
  split; [exact Hsub|].
  intros pre a mid b post Heq. rewrite Heq in Hsub.
  apply sublist_app_l in Hsub as (k1 & k2 & -> & _ & Hsub).
  apply sublist_cons_l in Hsub as (k3 & k4 & -> & Hsub).
  apply sublist_app_l in Hsub as (k5 & k6 & -> & _ & Hsub).
  apply sublist_cons_l in Hsub as (k7 & k8 & -> & _).
  exists (k1 ++ k3), (k5 ++ k7), k8.
  now rewrite <- !app_assoc.
Qed.

Lemma filteredInternships_subsequence_witness :
  exists pre' mid' post',
    postings = pre' ++ posting_data :: mid' ++ posting_ops :: post'.
Proof.
  exact (proj2 (filteredInternships_subsequence ascii_toLowerCase postings "e")
               [] posting_data [posting_web] posting_ops [] eq_refl).
Defined.

(** ** The backend model: orderings and outcomes *)

#[global] Instance newest_first_transitive : Transitive newest_first.
Proof. unfold newest_first. intros a b c Hab Hbc. lia. Qed.

#[global] Instance newest_first_total : Total newest_first.
Proof. unfold newest_first. intros a b. lia. Qed.

Lemma next_fault_outcome (b : Backend) :
  next_fault b = (outcome 0 b, tail (faults b)).
Proof. unfold next_fault, outcome. destruct (faults b); reflexivity. Qed.

(** The query of the page, served: every stored row, newest first. *)
Lemma run_select_internships_query (b : Backend) :
  run_select b internships_query
  = mkResponse (Some (merge_sort newest_first (internships_table b))) None.
Proof. reflexivity. Qed.

Example fetch_sample_store :
  internships (page (exec fetchInternships
                          (initial_world (sample_store None []))))
  = [posting_ops; posting_data; posting_web].
Proof. reflexivity. Qed.

(** ** Fetching the internships *)

(** C4. The fetch sends one query, the star projection of the internships
    table with no row filter, ordered by [created_at] descending; once
    served, the list kept in memory is made of every stored row, newest
    first. *)
Theorem fetchInternships_reads_all_newest_first (w : World) :
  outcome 0 (backend w) = None ->
  received (backend (exec fetchInternships w))
  = received (backend w)
    ++ [ReqSelect {| from := "internships";
                     select := "*";
                     order := Some ("created_at", false) |}]
  /\
  exists rows,
    Permutation rows (internships_table (backend w))
    /\ StronglySorted newest_first rows
    /\ fst (supabase_select internships_query w) = mkResponse (Some rows) None
    /\ internships (page (exec fetchInternships w)) = map columns rows.
Proof.
  intros Hserved.
  unfold exec, fetchInternships, bind, supabase_select.
  cbn [setLoading modify_page backend page fst snd].
  rewrite next_fault_outcome, Hserved.
  change (run_select ?b {| from := "internships"; select := "*";
                           order := Some ("created_at", false) |})
    with (run_select b internships_query).
  rewrite !run_select_internships_query.
  cbn. split; [reflexivity|].
  exists (merge_sort newest_first (internships_table (backend w))).
  split; [apply merge_sort_Permutation|].
  split; [apply StronglySorted_merge_sort; apply _|].
  split; reflexivity.
Qed.

Lemma fetchInternships_reads_all_newest_first_witness :
  received (backend (exec fetchInternships
                          (initial_world (sample_store None []))))
  = [ReqSelect internships_query]
  /\
  exists rows,
    Permutation rows (internships_table (sample_store None []))
    /\ StronglySorted newest_first rows
    /\ fst (supabase_select internships_query
              (initial_world (sample_store None [])))
       = mkResponse (Some rows) None
    /\ internships (page (exec fetchInternships
                               (initial_world (sample_store None []))))
       = map columns rows.
Proof.
  exact (fetchInternships_reads_all_newest_first
           (initial_world (sample_store None [])) eq_refl).
Defined.

(** C5. When the fetch fails, the error goes to the console, one generic
    destructive notification is shown, and the list of internships is left
    as it was: empty, when the page has just been mounted. *)
Theorem fetchInternships_failure (w : World) (e : PostgrestError) :
  outcome 0 (backend w) = Some e ->
  console (exec fetchInternships w)
  = console w ++ [("Error fetching internships:", e)]
  /\ toasts (exec fetchInternships w)
     = toasts w ++ [Toast.mk "Error loading internships"
                             "Please try again later"
                             (Some "destructive")]
  /\ internships (page (exec fetchInternships w)) = internships (page w)
  /\ (page w = initial_page ->
      internships (page (exec fetchInternships w)) = [])
  /\ loading (page (exec fetchInternships w)) = false.
Proof.
  intros Hfail.
  unfold exec, fetchInternships, bind, supabase_select.
  cbn [setLoading modify_page backend page fst snd].
  rewrite next_fault_outcome, Hfail. cbn.
  repeat split; try reflexivity.
  intros ->. reflexivity.
Qed.

Lemma fetchInternships_failure_witness :
  console (exec fetchInternships
                (initial_world (sample_store None [Some timeout_error])))
  = [("Error fetching internships:", timeout_error)]
  /\ internships (page (exec fetchInternships
                  (initial_world (sample_store None [Some timeout_error]))))
     = [].
Proof.
  pose proof (fetchInternships_failure
                (initial_world (sample_store None [Some timeout_error]))
                timeout_error eq_refl) as (Hc & _ & _ & Hi & _).
  split; [exact Hc | exact (Hi eq_refl)].
Defined.

(** ** Submitting an application *)

(** Opens a world up to the list of outcomes its backend holds. *)
Ltac open_world w :=
  let p := fresh "p" in
  let ts := fresh "ts" in
  let cs := fresh "cs" in
  let itbl := fresh "itbl" in
  let atbl := fresh "atbl" in
  let ses := fresh "ses" in
  let fs := fresh "fs" in
  let rq := fresh "rq" in
  destruct w as [p ts cs [itbl atbl ses fs rq]];
  cbn [page toasts console backend internships_table applications_table
       session faults received] in *.

(** The user the submit handler obtains is the signed-in one, when the
    call asking for it is served. *)
Lemma getUser_served (w : World) :
  outcome 0 (backend w) = None ->
  fst (supabase_auth_getUser w) = session (backend w).
Proof.
  intros H. unfold supabase_auth_getUser.
  rewrite next_fault_outcome, H. reflexivity.
Qed.

Example submit_sample_store :
  applications_table
    (backend (exec handleApplySubmit
                   (picked (Some posting_web) (sample_store (Some alice) []))))
  = [Application.mk "2" "u-7" "applied"; Application.mk "2" "u-1" "applied"].
Proof. reflexivity. Qed.

(** C2. A submission with an internship selected and an authenticated
    user obtained sends exactly one insert, of one row, to the applications
    table; the row is made of the selected internship's identifier, the
    user's identifier and the status ["applied"], and it is the one row the
    table gains when the store accepts the insert. *)
Theorem handleApplySubmit_inserts_one_row
    (w : World) (selected : Internship.t) (u : User.t) :
  selectedInternship (page w) = Some selected ->
  fst (supabase_auth_getUser w) = Some u ->
  received (backend (exec handleApplySubmit w))
  = received (backend w)
    ++ [ReqGetUser;
        ReqInsert "internship_applications"
          (Application.mk (Internship.id selected) (User.id u) "applied")]
  /\
  applications_table (backend (exec handleApplySubmit w))
  = match outcome 1 (backend w) with
    | None =>
        applications_table (backend w)
        ++ [Application.mk (Internship.id selected) (User.id u) "applied"]
    | Some _ => applications_table (backend w)
    end.
Proof.
  intros Hsel Huser. open_world w.
  unfold exec, handleApplySubmit, bind, get_page.
  cbn [page]. rewrite Hsel.
  unfold outcome, supabase_auth_getUser in *. cbn [faults backend] in *.
  destruct fs as [|[e0|] [|[e1|] fs]]; cbn in Huser; try discriminate;
    subst ses; cbn; rewrite <- app_assoc; split; reflexivity.
Qed.

Lemma handleApplySubmit_inserts_one_row_witness :
  received (backend (exec handleApplySubmit
              (picked (Some posting_web) (sample_store (Some alice) []))))
  = [ReqGetUser;
     ReqInsert "internship_applications" (Application.mk "2" "u-1" "applied")]
  /\
  applications_table (backend (exec handleApplySubmit
              (picked (Some posting_web) (sample_store (Some alice) []))))
  = [Application.mk "2" "u-7" "applied"; Application.mk "2" "u-1" "applied"].
Proof.
  exact (handleApplySubmit_inserts_one_row
           (picked (Some posting_web) (sample_store (Some alice) []))
           posting_web alice eq_refl eq_refl).
Defined.

(** C6. When the insert fails, one generic destructive notification is
    shown; the insert is sent once and not again; nothing of the success
    path happens: no other notification, and the state of the page, the
    apply dialog included, stays as it was. *)
Theorem handleApplySubmit_insert_failure
    (w : World) (selected : Internship.t) (u : User.t) (e : PostgrestError) :
  selectedInternship (page w) = Some selected ->
  fst (supabase_auth_getUser w) = Some u ->
  outcome 1 (backend w) = Some e ->
  toasts (exec handleApplySubmit w)
  = toasts w ++ [Toast.mk "Error"
                          "Failed to submit application. Please try again."
                          (Some "destructive")]
  /\ received (backend (exec handleApplySubmit w))
     = received (backend w)
       ++ [ReqGetUser;
           ReqInsert "internship_applications" (application_row selected u)]
  /\ isApplyDialogOpen (page (exec handleApplySubmit w))
     = isApplyDialogOpen (page w)
  /\ page (exec handleApplySubmit w) = page w
  /\ applications_table (backend (exec handleApplySubmit w))
     = applications_table (backend w).
Proof.
  intros Hsel Huser Hfail. open_world w.
  unfold exec, handleApplySubmit, bind, get_page.
  cbn [page]. rewrite Hsel.
  unfold outcome, supabase_auth_getUser in *. cbn [faults backend] in *.
  destruct fs as [|[e0|] [|[e1|] fs]];
    cbn in Huser, Hfail; try discriminate.
  subst ses. cbn. rewrite <- app_assoc. repeat split; reflexivity.
Qed.

Lemma handleApplySubmit_insert_failure_witness :
  toasts (exec handleApplySubmit
            (picked (Some posting_web)
                    (sample_store (Some alice) [None; Some timeout_error])))
  = [Toast.mk "Error" "Failed to submit application. Please try again."
              (Some "destructive")]
  /\ applications_table (backend (exec handleApplySubmit
            (picked (Some posting_web)
                    (sample_store (Some alice) [None; Some timeout_error]))))
     = [Application.mk "2" "u-7" "applied"].
Proof.
  pose proof (handleApplySubmit_insert_failure
                (picked (Some posting_web)
                        (sample_store (Some alice) [None; Some timeout_error]))
                posting_web alice timeout_error
                eq_refl eq_refl eq_refl) as (Ht & _ & _ & _ & Ha).
  split; [exact Ht | exact Ha].
Defined.

(** C10. Submitting with no internship selected, or when no user is
    obtained, changes nothing: no insert is sent and the applications
    table is as before, no notification is shown, nothing is logged, and
    the state of the page, dialogs included, is as before. *)
Theorem handleApplySubmit_noop (w : World) :
  selectedInternship (page w) = None
  \/ fst (supabase_auth_getUser w) = None ->
  page (exec handleApplySubmit w) = page w
  /\ toasts (exec handleApplySubmit w) = toasts w
  /\ console (exec handleApplySubmit w) = console w
  /\ applications_table (backend (exec handleApplySubmit w))
     = applications_table (backend w)
  /\ (received (backend (exec handleApplySubmit w)) = received (backend w)
      \/ received (backend (exec handleApplySubmit w))
         = received (backend w) ++ [ReqGetUser]).
Proof.
  intros H. open_world w.
  unfold exec, handleApplySubmit, bind, get_page. cbn [page].
  destruct (selectedInternship p) as [selected|].
  - destruct H as [H | H]; [discriminate|].
    unfold supabase_auth_getUser in *. cbn [backend] in *.
    destruct (next_fault _) as [f fs'].
    cbn [fst] in H. rewrite H. cbn. repeat split; try reflexivity. now right.
  - cbn. repeat split; try reflexivity. now left.
Qed.

Lemma handleApplySubmit_noop_witness :
  page (exec handleApplySubmit
             (picked (Some posting_web) (sample_store None [])))
  = page (picked (Some posting_web) (sample_store None []))
  /\ applications_table (backend (exec handleApplySubmit
             (picked None (sample_store (Some alice) []))))
     = [Application.mk "2" "u-7" "applied"].
Proof.
  pose proof (handleApplySubmit_noop
                (picked (Some posting_web) (sample_store None []))
                (or_intror eq_refl)) as (Hp & _).
  pose proof (handleApplySubmit_noop
                (picked None (sample_store (Some alice) []))
                (or_introl eq_refl)) as (_ & _ & _ & Ha & _).
  split; [exact Hp | exact Ha].
Defined.

(** ** The page, event by event *)

(** Runs a handler on an opened world, splitting on whatever it branches
    on. *)
Ltac run_handler :=
  unfold exec, step, detailsApplyOnClick, authCompleted, authModalOnClose,
    fetchInternships, pendingActionEffect, handleViewDetails, handleApply,
    handleApplySubmit, handleNotifyMe, executeProtectedAction,
    completePendingAction, clearPendingAction, supabase_select,
    supabase_insert, supabase_auth_getUser, next_fault, bind, get_page;
  cbn;
  repeat match goal with
         | |- context [String.eqb ?a ?b] => destruct (String.eqb a b); cbn
         | |- context [match ?x with _ => _ end] => is_var x; destruct x; cbn
         | |- context [match ?f ?x with _ => _ end] =>
             is_var x; destruct (f x); cbn
         end.

Lemma step_internships_table (e : Event) (w : World) :
  internships_table (backend (exec (step e) w))
  = internships_table (backend w).
Proof. open_world w. destruct e; run_handler; reflexivity. Qed.

Lemma step_received (e : Event) (w : World) :
  exists sent,
    received (backend (exec (step e) w)) = received (backend w) ++ sent
    /\ forallb reads_internships_writes_applications sent = true.
Proof.
  open_world w.
  destruct e; run_handler;
    first [ exists []; split; [now rewrite app_nil_r | reflexivity]
          | eexists [_]; split; reflexivity
          | eexists [_; _]; split; [now rewrite <- app_assoc | reflexivity] ].
Qed.

Lemma step_with_applications (e : Event) (w : World)
    (apps : list Application.t) :
  exists apps',
    exec (step e) (with_applications apps w)
    = with_applications apps' (exec (step e) w).
Proof.
  open_world w. unfold with_applications.
  destruct e; run_handler; eexists; reflexivity.
Qed.

Lemma run_snoc (es : list Event) (e : Event) (w : World) :
  run (es ++ [e]) w = exec (step e) (run es w).
Proof. unfold run. now rewrite fold_left_app. Qed.

Lemma forallb_app_true {A} (f : A -> bool) (l k : list A) :
  forallb f l = true -> forallb f k = true -> forallb f (l ++ k) = true.
Proof. intros Hl Hk. rewrite forallb_app, Hl, Hk. reflexivity. Qed.

Example run_apply_flow :
  let w := run [Mount; ApplyNow posting_web; AuthCompleted alice;
                SubmitApplication]
               (initial_world (sample_store None [])) in
  received (backend w)
  = [ReqSelect internships_query; ReqGetUser;
     ReqInsert "internship_applications" (application_row posting_web alice)]
  /\ isApplyDialogOpen (page w) = false
  /\ length (toasts w) = 1%nat.
Proof. repeat split; reflexivity. Qed.

(** C7. Whatever happens to the page, in whatever order, the internships
    table is never written and the applications table is never read: the
    internships table stays as it was, every call sent reads the
    internships table, inserts into the applications table or asks who is
    signed in, and nothing the page holds or shows depends on what the
    applications table contains. *)
Theorem page_reads_internships_writes_applications
    (es : list Event) (w : World) :
  internships_table (backend (run es w)) = internships_table (backend w)
  /\
  (exists sent,
      received (backend (run es w)) = received (backend w) ++ sent
      /\ forallb reads_internships_writes_applications sent = true)
  /\
  (forall apps,
      page (run es (with_applications apps w)) = page (run es w)
      /\ toasts (run es (with_applications apps w)) = toasts (run es w)
      /\ console (run es (with_applications apps w)) = console (run es w)).
Proof.
  split; [|split].
  - induction es as [|e es IH] using rev_ind; [reflexivity|].
    now rewrite run_snoc, step_internships_table.
  - induction es as [|e es IH] using rev_ind.
    + exists []. split; [now rewrite app_nil_r | reflexivity].
    + destruct IH as (sent & Hsent & Hok).
      destruct (step_received e (run es w)) as (sent' & Hsent' & Hok').
      exists (sent ++ sent'). split.
      * now rewrite run_snoc, Hsent', Hsent, app_assoc.
      * now apply forallb_app_true.
  - intros apps.
    assert (H : exists apps',
               run es (with_applications apps w)
               = with_applications apps' (run es w)).
    { induction es as [|e es IH] using rev_ind.
      - exists apps. reflexivity.
      - destruct IH as (apps1 & IH).
        destruct (step_with_applications e (run es w) apps1) as (apps2 & H).
        exists apps2. now rewrite !run_snoc, IH. }
    destruct H as (apps' & ->). repeat split; reflexivity.
Qed.

(** ** Applying behind authentication *)

Lemma handleApply_signed_out (w : World) (i : Internship.t) :
  session (backend w) = None ->
  isApplyDialogOpen (page (exec (handleApply i) w))
  = isApplyDialogOpen (page w)
  /\ showAuthModal (page (exec (handleApply i) w)) = true
  /\ pendingAction (page (exec (handleApply i) w))
     = Some (PendingAction.mk "apply_internship" (Some i))
  /\ backend (exec (handleApply i) w) = backend w.
Proof.
  intros H. open_world w. subst ses.
  unfold exec, handleApply, executeProtectedAction, bind. cbn.
  repeat split; reflexivity.
Qed.

Lemma authCompleted_resumes (w : World) (i : Internship.t) (u : User.t) :
  pendingAction (page w)
  = Some (PendingAction.mk "apply_internship" (Some i)) ->
  isApplyDialogOpen (page (exec (authCompleted u) w)) = true
  /\ selectedInternship (page (exec (authCompleted u) w)) = Some i
  /\ pendingAction (page (exec (authCompleted u) w)) = None.
Proof.
  intros H. open_world w.
  unfold exec, authCompleted, pendingActionEffect, completePendingAction,
    clearPendingAction, bind.
  cbn. rewrite H. cbn. repeat split; reflexivity.
Qed.

Lemma step_opens_apply_dialog (e : Event) (w : World) :
  e <> ApplyOpenChange true ->
  isApplyDialogOpen (page w) = false ->
  isApplyDialogOpen (page (exec (step e) w)) = true ->
  is_Some (session (backend (exec (step e) w))).
Proof.
  intros Hne Hclosed. open_world w.
  destruct e; try (destruct open; [congruence|]);
    run_handler; intros Hopen;
    first [ congruence | now eexists ].
Qed.

Lemma step_inserts_application (e : Event) (w : World) :
  applications_table (backend (exec (step e) w))
  <> applications_table (backend w) ->
  e = SubmitApplication
  /\ exists selected u,
       selectedInternship (page w) = Some selected
       /\ session (backend w) = Some u
       /\ fst (supabase_auth_getUser w) = Some u
       /\ applications_table (backend (exec (step e) w))
          = applications_table (backend w) ++ [application_row selected u].
Proof.
  open_world w.
  destruct e; run_handler; intros Hchanged;
    try congruence.
  all: split; [reflexivity|]; do 2 eexists; repeat split; reflexivity.
Qed.

(** C3. Applying is gated.  With nobody signed in, asking to apply opens
    no apply dialog: the request is kept pending and the authentication
    prompt is shown; when the prompt completes, the pending request is
    resumed and the dialog opens on the internship asked for.  Apart from
    the dialog library asking for it, the apply dialog opens only in a step
    that ends with a user signed in.  And the applications table changes
    only in a submission that found a signed-in user, by the one row of
    that user. *)
Theorem apply_is_gated :
  (forall (w : World) (i : Internship.t),
      session (backend w) = None ->
      isApplyDialogOpen (page (exec (step (ApplyNow i)) w))
      = isApplyDialogOpen (page w)
      /\ showAuthModal (page (exec (step (ApplyNow i)) w)) = true
      /\ pendingAction (page (exec (step (ApplyNow i)) w))
         = Some (PendingAction.mk "apply_internship" (Some i))
      /\ backend (exec (step (ApplyNow i)) w) = backend w)
  /\
  (forall (w : World) (i : Internship.t) (u : User.t),
      pendingAction (page w)
      = Some (PendingAction.mk "apply_internship" (Some i)) ->
      isApplyDialogOpen (page (exec (step (AuthCompleted u)) w)) = true
      /\ selectedInternship (page (exec (step (AuthCompleted u)) w)) = Some i
      /\ pendingAction (page (exec (step (AuthCompleted u)) w)) = None)
  /\
  (forall (e : Event) (w : World),
      e <> ApplyOpenChange true ->
      isApplyDialogOpen (page w) = false ->
      isApplyDialogOpen (page (exec (step e) w)) = true ->
      is_Some (session (backend (exec (step e) w))))
  /\
  (forall (e : Event) (w : World),
      applications_table (backend (exec (step e) w))
      <> applications_table (backend w) ->
      e = SubmitApplication
      /\ exists selected u,
           selectedInternship (page w) = Some selected
           /\ session (backend w) = Some u
           /\ fst (supabase_auth_getUser w) = Some u
           /\ applications_table (backend (exec (step e) w))
              = applications_table (backend w)
                ++ [application_row selected u]).
Proof.
  split; [|split; [|split]].
  - intros w i. apply handleApply_signed_out.
  - intros w i u. apply authCompleted_resumes.
  - apply step_opens_apply_dialog.
  - apply step_inserts_application.
Qed.

Lemma apply_is_gated_witness :
  isApplyDialogOpen
    (page (run [ApplyNow posting_web] (initial_world (sample_store None []))))
  = false
  /\ showAuthModal
       (page (run [ApplyNow posting_web]
                  (initial_world (sample_store None []))))
     = true
  /\ isApplyDialogOpen
       (page (run [ApplyNow posting_web; AuthCompleted alice]
                  (initial_world (sample_store None []))))
     = true.
Proof.
  destruct apply_is_gated as (Hdefer & Hresume & _ & _).
  destruct (Hdefer (initial_world (sample_store None [])) posting_web eq_refl)
    as (Hclosed & Hprompt & Hpending & _).
  destruct (Hresume
              (exec (step (ApplyNow posting_web))
                    (initial_world (sample_store None [])))
              posting_web alice Hpending) as (Hopen & _ & _).
  split; [exact Hclosed | split; [exact Hprompt | exact Hopen]].
Defined.

(** ** More on the search filter *)

Lemma string_append_assoc (a b c : string) :
  String.append (String.append a b) c = String.append a (String.append b c).
Proof.
  induction a as [|x a IH]; [reflexivity|].
  change (String x (String.append (String.append a b) c)
          = String x (String.append a (String.append b c))).
  now rewrite IH.
Qed.

(** A string found inside a string found inside [s] is found inside
    [s]. *)
Lemma includes_trans (s t r : string) :
  includes s t = true -> includes t r = true -> includes s r = true.
Proof.
  rewrite !includes_iff.
  intros (p1 & q1 & ->) (p2 & q2 & ->).
  exists (String.append p1 p2), (String.append q2 q1).
  now rewrite !string_append_assoc.
Qed.

Lemma list_filter_sublist_mono {A} (f g : A -> bool) (l : list A) :
  (forall x, f x = true -> g x = true) ->
  List.filter f l `sublist_of` List.filter g l.
Proof.
  intros Hfg. induction l as [|x l IH]; cbn [List.filter].
  - constructor.
  - destruct (f x) eqn:Hf.
    + rewrite (Hfg x Hf). now apply sublist_skip.
    + destruct (g x); [now apply sublist_cons | exact IH].
Qed.

Lemma matchesSearch_narrows (toLowerCase : string -> string)
    (q q' : string) (i : Internship.t) :
  includes (toLowerCase q') (toLowerCase q) = true ->
  matchesSearch toLowerCase q' i = true ->
  matchesSearch toLowerCase q i = true.
Proof.
  intros Hq. unfold matchesSearch.
  rewrite !orb_true_iff.
  intros [[Ht | Hc] | Hd].
  - left; left. eapply includes_trans; eassumption.
  - left; right. eapply includes_trans; eassumption.
  - right. destruct (Internship.description i) as [d|]; [|discriminate].
    apply andb_true_iff in Hd as [Hd1 Hd2].
    rewrite Hd1. cbn. eapply includes_trans; eassumption.
Qed.

(** X1. Typing on narrows the listing: when the old query, lower-cased,
    sits inside the new one, lower-cased, the internships shown for the
    new query are a subsequence of those shown for the old one. *)
Theorem filteredInternships_narrows
    (toLowerCase : string -> string)
    (internships : list Internship.t) (q q' : string) :
  includes (toLowerCase q') (toLowerCase q) = true ->
  filteredInternships toLowerCase internships q'
    `sublist_of` filteredInternships toLowerCase internships q.
Proof.
  intros Hq. unfold filteredInternships.
  apply list_filter_sublist_mono.
  intros i. now apply matchesSearch_narrows.
Qed.

Lemma filteredInternships_narrows_witness :
  filteredInternships ascii_toLowerCase postings "Site R"
    `sublist_of` filteredInternships ascii_toLowerCase postings "SIT".
Proof.
  exact (filteredInternships_narrows ascii_toLowerCase postings
           "SIT" "Site R" eq_refl).
Defined.

(** X2. Whether an internship is shown depends on that internship and the
    query alone: the filter of two lists put end to end is the two filters
    put end to end, and filtering what is shown again by the same query
    changes nothing. *)
Theorem filteredInternships_pointwise
    (toLowerCase : string -> string)
    (first second : list Internship.t) (q : string) :
  filteredInternships toLowerCase (first ++ second) q
  = filteredInternships toLowerCase first q
    ++ filteredInternships toLowerCase second q
  /\
  filteredInternships toLowerCase
    (filteredInternships toLowerCase first q) q
  = filteredInternships toLowerCase first q.
Proof.
  unfold filteredInternships. split.
  - apply List.filter_app.
  - induction first as [|i l IH]; [reflexivity|].
    cbn [List.filter].
    destruct (matchesSearch toLowerCase q i) eqn:Hi; [|exact IH].
    cbn [List.filter]. now rewrite Hi, IH.
Qed.

(** ** More on fetching *)

Lemma run_select_internships_query_literal (b : Backend) :
  run_select b {| from := "internships"; select := "*";
                  order := Some ("created_at", false) |}
  = mkResponse (Some (merge_sort newest_first (internships_table b))) None.
Proof. reflexivity. Qed.

(** The list a served fetch leaves in memory. *)
Lemma fetchInternships_served_list (w : World) :
  outcome 0 (backend w) = None ->
  internships (page (exec fetchInternships w))
  = map columns (merge_sort newest_first (internships_table (backend w))).
Proof.
  intros Hserved.
  unfold exec, fetchInternships, bind, supabase_select.
  cbn [setLoading modify_page backend page fst snd].
  rewrite next_fault_outcome, Hserved.
  change (run_select ?b {| from := "internships"; select := "*";
                           order := Some ("created_at", false) |})
    with (run_select b internships_query).
  rewrite !run_select_internships_query. reflexivity.
Qed.

Lemma StronglySorted_list_filter {A} (R : A -> A -> Prop) (f : A -> bool)
    (l : list A) :
  StronglySorted R l -> StronglySorted R (List.filter f l).
Proof.
  induction 1 as [|x l Hl IH Hx]; cbn [List.filter]; [constructor|].
  destruct (f x); [|exact IH].
  constructor; [exact IH|].
  rewrite List.Forall_forall in *.
  intros y Hy. apply Hx. apply filter_In in Hy. tauto.
Qed.

(** X3. After a served fetch the internships shown for any query are in
    newest-first order: they are the visible columns of stored rows, each
    taken at most as often as it is stored, sorted by creation time
    descending. *)
Theorem displayed_newest_first
    (toLowerCase : string -> string) (w : World) (q : string) :
  outcome 0 (backend w) = None ->
  exists rows,
    rows ⊆+ internships_table (backend w)
    /\ StronglySorted newest_first rows
    /\ filteredInternships toLowerCase
         (internships (page (exec fetchInternships w))) q
       = map columns rows.
Proof.
  intros Hserved. rewrite (fetchInternships_served_list w Hserved).
  unfold filteredInternships. rewrite filter_map_swap.
  eexists. split; [|split; [|reflexivity]].
  - rewrite <- (merge_sort_Permutation newest_first
                  (internships_table (backend w))) at 2.
    apply sublist_submseteq, list_filter_sublist.
  - apply StronglySorted_list_filter, StronglySorted_merge_sort; apply _.
Qed.

Lemma displayed_newest_first_witness :
  exists rows,
    rows ⊆+ internships_table (sample_store None [])
    /\ StronglySorted newest_first rows
    /\ filteredInternships ascii_toLowerCase
         (internships (page (exec fetchInternships
                                  (initial_world (sample_store None [])))))
         "intern"
       = map columns rows.
Proof.
  exact (displayed_newest_first ascii_toLowerCase
           (initial_world (sample_store None [])) "intern" eq_refl).
Defined.

(** X4. Whatever the backend answers, a fetch ends with [loading] off, has
    sent exactly its one query, and has touched nothing else: the search
    box, the selection, the dialogs, both tables and the signed-in user
    are as before, and at most one notification was added. *)
Theorem fetchInternships_always (w : World) :
  loading (page (exec fetchInternships w)) = false
  /\ received (backend (exec fetchInternships w))
     = received (backend w) ++ [ReqSelect internships_query]
  /\ searchQuery (page (exec fetchInternships w)) = searchQuery (page w)
  /\ selectedInternship (page (exec fetchInternships w))
     = selectedInternship (page w)
  /\ isApplyDialogOpen (page (exec fetchInternships w))
     = isApplyDialogOpen (page w)
  /\ isDetailsDialogOpen (page (exec fetchInternships w))
     = isDetailsDialogOpen (page w)
  /\ internships_table (backend (exec fetchInternships w))
     = internships_table (backend w)
  /\ applications_table (backend (exec fetchInternships w))
     = applications_table (backend w)
  /\ session (backend (exec fetchInternships w)) = session (backend w)
  /\ (toasts (exec fetchInternships w) = toasts w
      \/ exists t, toasts (exec fetchInternships w) = toasts w ++ [t]).
Proof.
  open_world w.
  unfold exec, fetchInternships, bind, supabase_select, next_fault.
  cbn [setLoading modify_page backend page fst snd faults].
  destruct fs as [|[e|] fs].
  - rewrite run_select_internships_query_literal. cbn.
    repeat split; try reflexivity. now left.
  - cbn. repeat split; try reflexivity. right. now eexists.
  - rewrite run_select_internships_query_literal. cbn.
    repeat split; try reflexivity. now left.
Qed.

(** ** More on submitting *)

(** X5. When the store accepts the insert, the visitor is told so by one
    default notification naming the internship's title, the apply dialog
    is closed, and the rest of the page stays: the selection, the search
    box, the list, the details dialog; nothing goes to the console. *)
Theorem handleApplySubmit_success
    (w : World) (selected : Internship.t) (u : User.t) :
  selectedInternship (page w) = Some selected ->
  fst (supabase_auth_getUser w) = Some u ->
  outcome 1 (backend w) = None ->
  toasts (exec handleApplySubmit w)
  = toasts w
    ++ [Toast.mk "Application Submitted!"
          ("Your application for " +:+ Internship.title selected
           +:+ " has been received.")
          None]
  /\ isApplyDialogOpen (page (exec handleApplySubmit w)) = false
  /\ selectedInternship (page (exec handleApplySubmit w)) = Some selected
  /\ searchQuery (page (exec handleApplySubmit w)) = searchQuery (page w)
  /\ internships (page (exec handleApplySubmit w)) = internships (page w)
  /\ isDetailsDialogOpen (page (exec handleApplySubmit w))
     = isDetailsDialogOpen (page w)
  /\ console (exec handleApplySubmit w) = console w.
Proof.
  intros Hsel Huser Hok. open_world w.
  unfold exec, handleApplySubmit, bind, get_page.
  cbn [page]. rewrite Hsel.
  unfold outcome, supabase_auth_getUser in *. cbn [faults backend] in *.
  destruct fs as [|[e0|] [|[e1|] fs]];
    cbn in Huser, Hok; try discriminate;
    subst ses; cbn; rewrite Hsel; repeat split; reflexivity.
Qed.

Lemma handleApplySubmit_success_witness :
  toasts (exec handleApplySubmit
            (picked (Some posting_web) (sample_store (Some alice) [])))
  = [Toast.mk "Application Submitted!"
       "Your application for Frontend Developer has been received." None]
  /\ isApplyDialogOpen
       (page (exec handleApplySubmit
                (picked (Some posting_web) (sample_store (Some alice) []))))
     = false.
Proof.
  pose proof (handleApplySubmit_success
                (picked (Some posting_web) (sample_store (Some alice) []))
                posting_web alice eq_refl eq_refl eq_refl)
    as (Ht & Hd & _).
  split; [exact Ht | exact Hd].
Defined.

(** X6. A submission ends in one of three ways and no other: silently,
    with nothing shown and nothing stored; with one destructive
    notification and nothing stored; or with one default notification,
    exactly one row more in the applications table and the apply dialog
    closed.  So success is never announced without the row being stored,
    and no submission shows two notifications. *)
Theorem handleApplySubmit_outcomes (w : World) :
  (toasts (exec handleApplySubmit w) = toasts w
   /\ applications_table (backend (exec handleApplySubmit w))
      = applications_table (backend w)
   /\ page (exec handleApplySubmit w) = page w)
  \/
  (exists t,
      toasts (exec handleApplySubmit w) = toasts w ++ [t]
      /\ Toast.variant t = Some "destructive"
      /\ applications_table (backend (exec handleApplySubmit w))
         = applications_table (backend w)
      /\ page (exec handleApplySubmit w) = page w)
  \/
  (exists t selected u,
      toasts (exec handleApplySubmit w) = toasts w ++ [t]
      /\ Toast.variant t = None
      /\ Toast.title t = "Application Submitted!"
      /\ selectedInternship (page w) = Some selected
      /\ session (backend w) = Some u
      /\ applications_table (backend (exec handleApplySubmit w))
         = applications_table (backend w) ++ [application_row selected u]
      /\ isApplyDialogOpen (page (exec handleApplySubmit w)) = false).
Proof.
  open_world w.
  unfold exec, handleApplySubmit, bind, get_page. cbn [page].
  destruct (selectedInternship p) as [selected|] eqn:Hsel;
    [|left; repeat split; reflexivity].
  unfold supabase_auth_getUser, supabase_insert, next_fault.
  cbn [backend faults session].
  destruct fs as [|[e0|] [|[e1|] fs]]; destruct ses as [u|]; cbn;
    first [ left; repeat split; reflexivity
          | right; left; eexists; repeat split; reflexivity
          | right; right; do 3 eexists; repeat split; reflexivity ].
Qed.

(** X7. The page has no guard against applying twice: a successful
    submission keeps the selection, and submitting again sends the very
    same row again, which an accepting store files a second time. *)
Theorem handleApplySubmit_twice
    (w : World) (selected : Internship.t) (u : User.t) :
  selectedInternship (page w) = Some selected ->
  session (backend w) = Some u ->
  (forall n, (n < 4)%nat -> outcome n (backend w) = None) ->
  received (backend (exec handleApplySubmit (exec handleApplySubmit w)))
  = received (backend w)
    ++ [ReqGetUser;
        ReqInsert "internship_applications" (application_row selected u);
        ReqGetUser;
        ReqInsert "internship_applications" (application_row selected u)]
  /\
  applications_table
    (backend (exec handleApplySubmit (exec handleApplySubmit w)))
  = applications_table (backend w)
    ++ [application_row selected u; application_row selected u].
Proof.
  intros Hsel Hses Hok. open_world w. subst ses.
  assert (H0 := Hok 0%nat ltac:(lia)). assert (H1 := Hok 1%nat ltac:(lia)).
  assert (H2 := Hok 2%nat ltac:(lia)). assert (H3 := Hok 3%nat ltac:(lia)).
  clear Hok. unfold outcome in *. cbn [faults] in *.
  unfold exec, handleApplySubmit, bind, get_page. cbn [page]. rewrite Hsel.
  destruct fs as [|[?|] [|[?|] [|[?|] [|[?|] fs]]]];
    cbn in H0, H1, H2, H3; try discriminate;
    cbn; rewrite Hsel; cbn; rewrite <- !app_assoc; split; reflexivity.
Qed.

Lemma handleApplySubmit_twice_witness :
  applications_table
    (backend (exec handleApplySubmit
                (exec handleApplySubmit
                   (picked (Some posting_web)
                           (sample_store (Some alice) [])))))
  = [Application.mk "2" "u-7" "applied";
     Application.mk "2" "u-1" "applied";
     Application.mk "2" "u-1" "applied"].
Proof.
  refine (proj2 (handleApplySubmit_twice
                   (picked (Some posting_web) (sample_store (Some alice) []))
                   posting_web alice eq_refl eq_refl _)).
  intros [|[|[|[|n]]]] Hn; first [reflexivity | exfalso; lia].
Defined.

(** ** Who writes what *)



(** X9. The fetched list, the loading flag and the console are written by
    the mount alone, and the search text by the search box and the Clear
    Search button alone. *)
Theorem step_writers (e : Event) (w : World) :
  (e <> Mount ->
   internships (page (exec (step e) w)) = internships (page w)
   /\ loading (page (exec (step e) w)) = loading (page w)
   /\ console (exec (step e) w) = console w)
  /\
  ((forall v, e <> SearchChange v) -> e <> ClearSearch ->
   searchQuery (page (exec (step e) w)) = searchQuery (page w)).
Proof.
  open_world w. split.
  - intros Hmount.
    destruct e; try congruence; run_handler; repeat split; reflexivity.
  - intros Hchange Hclear.
    destruct e; try congruence; try (now destruct (Hchange v));
      run_handler; reflexivity.
Qed.

Lemma step_writers_witness :
  internships
    (page (run [Mount; ViewDetails posting_web]
               (initial_world (sample_store None []))))
  = internships (page (run [Mount] (initial_world (sample_store None []))))
  /\ searchQuery
       (page (run [SearchChange "web"; SubmitApplication]
                  (initial_world (sample_store None []))))
     = "web".
Proof.
  split.
  - exact (proj1 (proj1 (step_writers (ViewDetails posting_web)
                           (run [Mount] (initial_world (sample_store None []))))
                        ltac:(discriminate))).
  - exact (proj2 (step_writers SubmitApplication
                    (run [SearchChange "web"]
                         (initial_world (sample_store None []))))
                 ltac:(discriminate) ltac:(discriminate)).
Defined.

(** ** The listing on screen *)

Example render_sample_cards :
  (map key <$> renderCards postings) = Some ["1"; "2"; "3"]
  /\ (map cardDescription <$> renderCards postings)
     = Some ["Work with Python and SQL"; "No description available";
             "No description available"]
  /\ (map durationBadge <$> renderCards postings)
     = Some [Some "3 months"; None; Some "6 weeks"].
Proof. repeat split; reflexivity. Qed.

(** The colour scheme of position [index], by its remainder modulo 3. *)
Lemma cardColors_lookup (index : nat) :
  exists colorScheme,
    cardColors !! (index mod 3)%nat = Some colorScheme.
Proof.
  apply lookup_lt_is_Some_2. cbn [length cardColors].
  apply Nat.mod_upper_bound. discriminate.
Qed.

Lemma renderCard_is_Some (internship : Internship.t) (index : nat) :
  exists card,
    renderCard internship index = Some card
    /\ key card = Internship.id internship
    /\ cardTitle card = Internship.title internship
    /\ companyBadge card = Internship.company internship
    /\ viewDetailsOnClick card = ViewDetails internship
    /\ applyNowOnClick card = ApplyNow internship.
Proof.
  unfold renderCard.
  destruct (cardColors_lookup index) as [colorScheme ->].
  eexists. repeat split; reflexivity.
Qed.

(** Position by position, the cards are the renderings of the internships
    at the same position. *)
Lemma renderCardsFrom_lookup (filtered : list Internship.t) :
  forall index,
  exists cards,
    renderCardsFrom index filtered = Some cards
    /\ length cards = length filtered
    /\ (forall i card,
           cards !! i = Some card ->
           exists internship,
             filtered !! i = Some internship
             /\ renderCard internship (index + i) = Some card).
Proof.
  induction filtered as [|x l IH]; intros index; cbn [renderCardsFrom].
  - exists []. repeat split. intros i card H. discriminate.
  - destruct (renderCard_is_Some x index) as (card0 & Hcard0 & _).
    destruct (IH (S index)) as (cards & Hcards & Hlen & Hlook).
    rewrite Hcard0, Hcards. exists (card0 :: cards).
    split; [reflexivity|]. split; [cbn; now rewrite Hlen|].
    intros [|i] card H; cbn in H.
    + injection H as <-. exists x. rewrite Nat.add_0_r. now split.
    + destruct (Hlook i card H) as (y & Hy & Hr).
      exists y. split; [exact Hy|].
      now replace (index + S i)%nat with (S index + i)%nat by lia.
Qed.

Lemma renderCardsFrom_maps (filtered : list Internship.t) :
  forall index cards,
    renderCardsFrom index filtered = Some cards ->
    map key cards = map Internship.id filtered
    /\ map cardTitle cards = map Internship.title filtered
    /\ map viewDetailsOnClick cards = map ViewDetails filtered
    /\ map applyNowOnClick cards = map ApplyNow filtered.
Proof.
  induction filtered as [|x l IH]; intros index cards;
    cbn [renderCardsFrom].
  - intros [= <-]. repeat split; reflexivity.
  - destruct (renderCard_is_Some x index)
      as (card0 & -> & Hk & Ht & _ & Hv & Ha).
    destruct (renderCardsFrom (S index) l) as [rest|] eqn:Hrest;
      [|discriminate].
    intros [= <-]. destruct (IH _ _ Hrest) as (IHk & IHt & IHv & IHa).
    cbn [map]. rewrite Hk, Ht, Hv, Ha, IHk, IHt, IHv, IHa.
    repeat split; reflexivity.
Qed.

(** X10. Drawing the grid never reads past the end of [cardColors]: for
    every list the rendering succeeds, with one card per internship in the
    same order, each card keyed by its internship's identifier, titled by
    its title, and with both buttons acting on that very internship. *)
Theorem renderCards_total (filtered : list Internship.t) :
  exists cards,
    renderCards filtered = Some cards
    /\ length cards = length filtered
    /\ map key cards = map Internship.id filtered
    /\ map cardTitle cards = map Internship.title filtered
    /\ map viewDetailsOnClick cards = map ViewDetails filtered
    /\ map applyNowOnClick cards = map ApplyNow filtered.
Proof.
  unfold renderCards.
  destruct (renderCardsFrom_lookup filtered 0) as (cards & Hcards & Hlen & _).
  exists cards. split; [exact Hcards|]. split; [exact Hlen|].
  exact (renderCardsFrom_maps filtered 0 cards Hcards).
Qed.

(** The two class names of a card are those of the colour scheme its
    position selects. *)
Lemma renderCard_classes (internship : Internship.t) (index : nat)
    (card : CardView) :
  renderCard internship index = Some card ->
  exists colorScheme,
    cardColors !! (index mod 3)%nat = Some colorScheme
    /\ className card
       = bg colorScheme +:+ " " +:+ border colorScheme
         +:+ " border-2 overflow-hidden group animate-fade-in-up hover-lift"
    /\ iconClassName card
       = "p-3 rounded-lg " +:+ iconBg colorScheme +:+ " w-fit".
Proof.
  unfold renderCard.
  destruct (cardColors !! (index mod 3)%nat) as [colorScheme|];
    [|discriminate].
  intros [= <-]. exists colorScheme. repeat split; reflexivity.
Qed.

Lemma mod3_cases (i : nat) :
  ((i mod 3 = 0 /\ S i mod 3 = 1 /\ (3 + i) mod 3 = 0)
   \/ (i mod 3 = 1 /\ S i mod 3 = 2 /\ (3 + i) mod 3 = 1)
   \/ (i mod 3 = 2 /\ S i mod 3 = 0 /\ (3 + i) mod 3 = 2))%nat.
Proof.
  pose proof (Nat.div_mod_eq i 3) as Hi.
  pose proof (Nat.mod_upper_bound i 3 ltac:(discriminate)) as Hlt.
  pose proof (Nat.div_mod_eq (S i) 3) as HS.
  pose proof (Nat.mod_upper_bound (S i) 3 ltac:(discriminate)) as HSlt.
  pose proof (Nat.div_mod_eq (3 + i) 3) as H3.
  pose proof (Nat.mod_upper_bound (3 + i) 3 ltac:(discriminate)) as H3lt.
  lia.
Qed.

(** X11. The colours go round in threes: two neighbouring cards never
    share a colour scheme, and the card three places on has the same one
    again. *)
Theorem renderCards_colours
    (filtered : list Internship.t) (cards : list CardView)
    (i : nat) (card : CardView) :
  renderCards filtered = Some cards ->
  cards !! i = Some card ->
  (forall next,
      cards !! S i = Some next ->
      className next <> className card
      /\ iconClassName next <> iconClassName card)
  /\
  (forall third,
      cards !! (3 + i)%nat = Some third ->
      className third = className card
      /\ iconClassName third = iconClassName card).
Proof.
  unfold renderCards. intros Hcards Hcard.
  destruct (renderCardsFrom_lookup filtered 0) as (cards' & Hcards' & _ & Hlook).
  rewrite Hcards in Hcards'. injection Hcards' as <-.
  destruct (Hlook i card Hcard) as (x & _ & Hx).
  apply renderCard_classes in Hx as (cs & Hcs & -> & ->).
  cbn [Nat.add] in Hcs.
  split.
  - intros next Hnext.
    destruct (Hlook (S i) next Hnext) as (y & _ & Hy).
    apply renderCard_classes in Hy as (cs' & Hcs' & -> & ->).
    cbn [Nat.add] in Hcs'.
    destruct (mod3_cases i) as [(H0 & H1 & _) | [(H0 & H1 & _) | (H0 & H1 & _)]];
      rewrite H0 in Hcs; rewrite H1 in Hcs';
      injection Hcs as <-; injection Hcs' as <-;
      split; discriminate.
  - intros third Hthird.
    destruct (Hlook (3 + i)%nat third Hthird) as (y & _ & Hy).
    apply renderCard_classes in Hy as (cs' & Hcs' & -> & ->).
    change (0 + (3 + i))%nat with (3 + i)%nat in Hcs'.
    destruct (mod3_cases i) as [(H0 & _ & H3) | [(H0 & _ & H3) | (H0 & _ & H3)]];
      rewrite H0 in Hcs; rewrite H3 in Hcs';
      injection Hcs as <-; injection Hcs' as <-;
      split; reflexivity.
Qed.

Lemma renderCards_colours_witness :
  exists cards card next,
    renderCards postings = Some cards
    /\ cards !! 0%nat = Some card
    /\ cards !! 1%nat = Some next
    /\ className next <> className card.
Proof.
  do 3 eexists.
  split; [reflexivity|]. split; [reflexivity|]. split; [reflexivity|].
  exact (proj1 (proj1 (renderCards_colours postings _ 0 _ eq_refl eq_refl)
                      _ eq_refl)).
Defined.

Lemma truthy_iff (s : string) : truthy s = true <-> s <> EmptyString.
Proof. destruct s; cbn; split; congruence. Qed.

(** X12. A card never shows an empty description: a missing description
    and an empty one both give way to "No description available", any
    other description is shown as it is.  The duration badge is there
    exactly for a duration that is present and not empty. *)
Theorem renderCard_texts
    (internship : Internship.t) (index : nat) (card : CardView) :
  renderCard internship index = Some card ->
  cardDescription card <> EmptyString
  /\ (Internship.description internship = None
      \/ Internship.description internship = Some EmptyString ->
      cardDescription card = "No description available")
  /\ (forall d,
         Internship.description internship = Some d ->
         d <> EmptyString ->
         cardDescription card = d)
  /\ (forall d,
         durationBadge card = Some d <->
         Internship.duration internship = Some d /\ d <> EmptyString).
Proof.
  unfold renderCard.
  destruct (cardColors !! (index mod 3)%nat) as [colorScheme|];
    [|discriminate].
  intros [= <-]. cbn [cardDescription durationBadge].
  unfold or_else, and_then_badge.
  split; [|split; [|split]].
  - destruct (Internship.description internship) as [[|c d]|];
      cbn; discriminate.
  - intros [-> | ->]; reflexivity.
  - intros d -> Hd. apply truthy_iff in Hd. now rewrite Hd.
  - intros d. destruct (Internship.duration internship) as [[|c s]|]; cbn.
    + split; [discriminate | intros [[= <-] H]; congruence].
    + split; [intros [= <-]; split; [reflexivity | discriminate]
             | intros [[= <-] _]; reflexivity].
    + split; [discriminate | intros [H _]; discriminate].
Qed.

Lemma renderCard_texts_witness :
  exists card,
    renderCard posting_ops 2 = Some card
    /\ cardDescription card = "No description available"
    /\ durationBadge card = Some "6 weeks".
Proof.
  eexists. split; [reflexivity|].
  destruct (renderCard_texts posting_ops 2 _ eq_refl)
    as (_ & Hfallback & _ & Hbadge).
  split.
  - exact (Hfallback (or_intror eq_refl)).
  - apply (proj2 (Hbadge "6 weeks")).
    split; [reflexivity | discriminate].
Defined.

Lemma length_eqb_0 {A} (l : list A) :
  (length l =? 0)%nat = true <-> l = [].
Proof. destruct l; cbn; split; congruence. Qed.

Section ListingFacts.

Variable toLowerCase : string -> string.

Lemma renderListing_loaded (p : Page) :
  loading p = false ->
  filteredInternships toLowerCase (internships p) (searchQuery p) <> [] ->
  exists cards,
    renderListing toLowerCase p = Some (CardGrid cards)
    /\ renderCards
         (filteredInternships toLowerCase (internships p) (searchQuery p))
       = Some cards.
Proof.
  intros Hloading Hsome. unfold renderListing. rewrite Hloading.
  destruct (length _ =? 0)%nat eqn:Hlen.
  - apply length_eqb_0 in Hlen. contradiction.
  - destruct (renderCards_total
                (filteredInternships toLowerCase (internships p)
                                     (searchQuery p)))
      as (cards & Hcards & _).
    cbn zeta. rewrite Hcards. now exists cards.
Qed.

Lemma renderListing_faces_cards (p : Page) :
  loading p = false ->
  filteredInternships toLowerCase (internships p) (searchQuery p) <> [] ->
  exists cards,
    renderListing toLowerCase p = Some (CardGrid cards)
    /\ map key cards
       = map Internship.id
           (filteredInternships toLowerCase (internships p) (searchQuery p)).
Proof.
  intros H Hsome.
  destruct (renderListing_loaded p H Hsome) as (cards & Hlisting & Hcards).
  exists cards. split; [exact Hlisting|].
  unfold renderCards in Hcards.
  exact (proj1 (renderCardsFrom_maps _ _ _ Hcards)).
Qed.

End ListingFacts.

(** X13. The listing section always has something to draw, and which of
    its three faces it shows is settled by the loading flag and the
    filter: the loading line while loading; "No internships available",
    with a button that clears the search, when nothing matches; otherwise
    one card per matching internship, in the order of the filtered list. *)
Theorem renderListing_faces (toLowerCase : string -> string) (p : Page) :
  (loading p = true ->
   renderListing toLowerCase p = Some LoadingInternships)
  /\
  (loading p = false ->
   filteredInternships toLowerCase (internships p) (searchQuery p) = [] ->
   renderListing toLowerCase p = Some (NoInternshipsAvailable ClearSearch))
  /\
  (loading p = false ->
   filteredInternships toLowerCase (internships p) (searchQuery p) <> [] ->
   exists cards,
     renderListing toLowerCase p = Some (CardGrid cards)
     /\ map key cards
        = map Internship.id
            (filteredInternships toLowerCase (internships p)
                                 (searchQuery p))).
Proof.
  split; [|split].
  - intros H. unfold renderListing. now rewrite H.
  - intros H Hnone. unfold renderListing. now rewrite H, Hnone.
  - intros H Hsome.
    destruct (renderListing_loaded toLowerCase p H Hsome)
      as (cards & Hlisting & Hcards).
    exists cards. split; [exact Hlisting|].
    unfold renderCards in Hcards.
    exact (proj1 (renderCardsFrom_maps _ _ _ Hcards)).
Qed.

Lemma renderListing_faces_witness :
  renderListing ascii_toLowerCase initial_page = Some LoadingInternships
  /\ renderListing ascii_toLowerCase
       (page (exec fetchInternships
                (initial_world (sample_store None [Some timeout_error]))))
     = Some (NoInternshipsAvailable ClearSearch).
Proof.
  split.
  - exact (proj1 (renderListing_faces ascii_toLowerCase initial_page)
                 eq_refl).
  - exact (proj1 (proj2 (renderListing_faces ascii_toLowerCase
             (page (exec fetchInternships
                (initial_world (sample_store None [Some timeout_error]))))))
             eq_refl eq_refl).
Defined.

Lemma list_filter_all {A} (f : A -> bool) (l : list A) :
  (forall x, f x = true) -> List.filter f l = l.
Proof.
  intros Hf. induction l as [|x l IH]; cbn [List.filter]; [reflexivity|].
  now rewrite Hf, IH.
Qed.

Lemma matchesSearch_empty (toLowerCase : string -> string) :
  toLowerCase EmptyString = EmptyString ->
  forall i, matchesSearch toLowerCase EmptyString i = true.
Proof.
  intros Hempty i. unfold matchesSearch.
  now rewrite Hempty, includes_empty.
Qed.

(** What stands behind each face of the listing. *)
Lemma renderListing_inv (toLowerCase : string -> string) (p : Page)
    (face : Listing) :
  renderListing toLowerCase p = Some face ->
  match face with
  | LoadingInternships => loading p = true
  | NoInternshipsAvailable e =>
      e = ClearSearch
      /\ loading p = false
      /\ filteredInternships toLowerCase (internships p) (searchQuery p) = []
  | CardGrid cards =>
      loading p = false
      /\ renderCards
           (filteredInternships toLowerCase (internships p) (searchQuery p))
         = Some cards
  end.
Proof.
  unfold renderListing. destruct (loading p).
  - intros [= <-]. reflexivity.
  - destruct (length _ =? 0)%nat eqn:Hlen.
    + intros [= <-]. apply length_eqb_0 in Hlen. now repeat split.
    + cbn zeta. destruct (renderCards _) as [cards|]; [|discriminate].
      intros [= <-]. now split.
Qed.

(** X14. The Clear Search button does what it says: pressed on the
    "No internships available" face, it brings up one card for every
    fetched internship, in the fetched order; only when nothing was
    fetched does the face stay. *)
Theorem clear_search_restores
    (toLowerCase : string -> string) (w : World) (e : Event) :
  toLowerCase EmptyString = EmptyString ->
  renderListing toLowerCase (page w) = Some (NoInternshipsAvailable e) ->
  (internships (page w) <> [] ->
   exists cards,
     renderListing toLowerCase (page (exec (step e) w))
     = Some (CardGrid cards)
     /\ map key cards = map Internship.id (internships (page w)))
  /\
  (internships (page w) = [] ->
   renderListing toLowerCase (page (exec (step e) w))
   = Some (NoInternshipsAvailable e)).
Proof.
  intros Hempty Hface.
  apply renderListing_inv in Hface as (-> & Hloading & _).
  assert (Hall : filteredInternships toLowerCase
                   (internships (page (exec (step ClearSearch) w)))
                   (searchQuery (page (exec (step ClearSearch) w)))
                 = internships (page w)).
  { unfold filteredInternships. cbn.
    apply list_filter_all, matchesSearch_empty, Hempty. }
  assert (Hl : loading (page (exec (step ClearSearch) w)) = false)
    by exact Hloading.
  split.
  - intros Hsome.
    destruct (renderListing_faces_cards toLowerCase
                (page (exec (step ClearSearch) w)) Hl)
      as (cards & Hlisting & Hkeys).
    + now rewrite Hall.
    + exists cards. split; [exact Hlisting|]. now rewrite Hkeys, Hall.
  - intros Hnone. unfold renderListing. rewrite Hl, Hall, Hnone. reflexivity.
Qed.

Lemma clear_search_restores_witness :
  exists cards,
    renderListing ascii_toLowerCase
      (page (run [Mount; SearchChange "kotlin"; ClearSearch]
                 (initial_world (sample_store None []))))
    = Some (CardGrid cards)
    /\ map key cards = ["3"; "1"; "2"].
Proof.
  exact (proj1 (clear_search_restores ascii_toLowerCase
                  (run [Mount; SearchChange "kotlin"]
                       (initial_world (sample_store None [])))
                  ClearSearch eq_refl eq_refl)
               ltac:(discriminate)).
Defined.

(** X15. Distinct identifiers give distinct React keys: when no two
    fetched internships share an identifier, no two cards of the grid
    share a key, whatever the query. *)
Theorem card_keys_unique
    (toLowerCase : string -> string) (p : Page) (cards : list CardView) :
  NoDup (map Internship.id (internships p)) ->
  renderListing toLowerCase p = Some (CardGrid cards) ->
  NoDup (map key cards).
Proof.
  intros Hids Hface.
  apply renderListing_inv in Hface as (_ & Hcards).
  unfold renderCards in Hcards.
  rewrite (proj1 (renderCardsFrom_maps _ _ _ Hcards)).
  apply (sublist_NoDup _ (map Internship.id (internships p)));
    [exact Hids|].
  unfold filteredInternships.
  apply (fmap_sublist Internship.id), list_filter_sublist.
Qed.

Lemma card_keys_unique_witness :
  exists cards,
    renderListing ascii_toLowerCase
      (page (run [Mount; SearchChange "e"]
                 (initial_world (sample_store None []))))
    = Some (CardGrid cards)
    /\ NoDup (map key cards).
Proof.
  eexists. split; [reflexivity|].
  apply (card_keys_unique ascii_toLowerCase
           (page (run [Mount; SearchChange "e"]
                      (initial_world (sample_store None []))))).
  - refine (bool_decide_unpack _ _). vm_compute. exact I.
  - reflexivity.
Defined.

(** X16. View Details on a card needs no sign-in and no backend: whoever
    presses it, the details dialog opens on the internship that card was
    drawn from, one of the fetched ones, with no call sent, no
    authentication prompt raised and no notification shown. *)
Theorem card_view_details
    (toLowerCase : string -> string) (w : World)
    (cards : list CardView) (i : nat) (card : CardView) :
  renderListing toLowerCase (page w) = Some (CardGrid cards) ->
  cards !! i = Some card ->
  exists internship,
    filteredInternships toLowerCase (internships (page w))
                        (searchQuery (page w)) !! i = Some internship
    /\ In internship (internships (page w))
    /\ Internship.title internship = cardTitle card
    /\ selectedInternship (page (exec (step (viewDetailsOnClick card)) w))
       = Some internship
    /\ isDetailsDialogOpen (page (exec (step (viewDetailsOnClick card)) w))
       = true
    /\ showAuthModal (page (exec (step (viewDetailsOnClick card)) w))
       = showAuthModal (page w)
    /\ backend (exec (step (viewDetailsOnClick card)) w) = backend w
    /\ toasts (exec (step (viewDetailsOnClick card)) w) = toasts w.
Proof.
  intros Hface Hcard.
  apply renderListing_inv in Hface as (_ & Hcards).
  unfold renderCards in Hcards.
  destruct (renderCardsFrom_lookup
              (filteredInternships toLowerCase (internships (page w))
                                   (searchQuery (page w))) 0)
    as (cards' & Hcards' & _ & Hlook).
  rewrite Hcards in Hcards'. injection Hcards' as <-.
  destruct (Hlook i card Hcard) as (x & Hx & Hrender).
  destruct (renderCard_is_Some x (0 + i))
    as (card' & Hcard' & _ & Ht & _ & Hv & _).
  rewrite Hrender in Hcard'. injection Hcard' as <-.
  exists x. split; [exact Hx|]. split.
  - apply list_elem_of_lookup_2 in Hx. apply list_elem_of_In in Hx.
    unfold filteredInternships in Hx. apply filter_In in Hx. tauto.
  - split; [now rewrite Ht|]. rewrite Hv.
    open_world w. repeat split; reflexivity.
Qed.

Lemma card_view_details_witness :
  exists cards card,
    renderListing ascii_toLowerCase
      (page (run [Mount] (initial_world (sample_store None []))))
    = Some (CardGrid cards)
    /\ cards !! 1%nat = Some card
    /\ selectedInternship
         (page (exec (step (viewDetailsOnClick card))
                     (run [Mount] (initial_world (sample_store None [])))))
       = Some posting_data.
Proof.
  do 2 eexists. split; [reflexivity|]. split; [reflexivity|].
  destruct (card_view_details ascii_toLowerCase
              (run [Mount] (initial_world (sample_store None [])))
              _ 1 _ eq_refl eq_refl)
    as (x & Hx & _ & _ & Hsel & _).
  injection Hx as <-. exact Hsel.
Defined.


